(** * simple-etl: the patient-record extractor and its queue worker

    A shallow embedding of [src/docker/ParsePatientRecords.py].

    - Python values produced by [json.loads] are the inductive type [value];
      a dict is an association list in insertion order, since [str] of a
      dict prints its items in that order.
    - Python [str] is modelled by [string], a sequence of 8-bit characters;
      [.encode('utf-8')] is the identity on it and [.lower()] acts on the
      ASCII letters.
    - An exception is a value of [exn]; code that may raise returns a
      [result].  Statements are sequenced in source order, so the first
      exception raised by the model is the first one raised by the code.
    - The local file system is a finite map from path to file contents,
      paths being compared as strings.  Opening a file for writing always
      succeeds and replaces its contents; [os.remove] of a path that is
      not in the map raises.
    - The services the worker talks to (S3, SQS), and the library functions
      [json.loads] and [urllib.unquote_plus], are the fields of the class
      [Runtime]; every theorem about the worker holds for all of them, in
      particular for an interpreter whose [urllib] has no [unquote_plus]
      and raises there.
    - [csv.writer] and [csv.reader] follow the state machines of the
      [csv] module for the excel dialect.

    The first part holds the definitions, the second the properties. *)

From Stdlib Require Import ZArith Ascii String.
From stdpp Require Import gmap strings list pretty.

Set Warnings "-register-all".

Local Open Scope string_scope.
Local Open Scope Z_scope.

(** ** Exceptions and results *)

Inductive exn :=
| NameError (name : string)
| AttributeError (attr : string)
| KeyError
| IndexError
| TypeError
| ValueError
| FileNotFoundError (path : string)
| ServiceError (what : string).

Inductive result (A : Type) :=
| Ok (a : A)
| Raise (e : exn).
Arguments Ok {A} a.
Arguments Raise {A} e.

#[global] Instance result_ret : MRet result := @Ok.
#[global] Instance result_bind : MBind result := λ A B f r,
  match r with
  | Ok a => f a
  | Raise e => Raise e
  end.

Definition raised {A} (r : result A) : Prop := ∃ e, r = Raise e.

(** ** Characters *)

Definition dquote : ascii := "034"%char.
Definition squote : ascii := "'"%char.
Definition CR : ascii := "013"%char.
Definition LF : ascii := "010"%char.
Definition TAB : ascii := "009"%char.
Definition backslash : ascii := "\"%char.

Definition char (c : ascii) : string := String c "".

Fixpoint str_mem (c : ascii) (s : string) : bool :=
  match s with
  | EmptyString => false
  | String d s' => if Ascii.eqb c d then true else str_mem c s'
  end.

Fixpoint str_map (f : ascii → ascii) (s : string) : string :=
  match s with
  | EmptyString => EmptyString
  | String c s' => String (f c) (str_map f s')
  end.

Fixpoint str_concat_map (f : ascii → string) (s : string) : string :=
  match s with
  | EmptyString => EmptyString
  | String c s' => f c +:+ str_concat_map f s'
  end.

Fixpoint str_join (sep : string) (l : list string) : string :=
  match l with
  | [] => ""
  | [s] => s
  | s :: l' => s +:+ sep +:+ str_join sep l'
  end.

(** [str.lower()] on the ASCII letters. *)
Definition lower_char (c : ascii) : ascii :=
  let n := N_of_ascii c in
  if ((65 <=? n) && (n <=? 90))%N then ascii_of_N (n + 32) else c.

Definition str_lower (s : string) : string := str_map lower_char s.

(** ** Python values *)

Inductive value :=
| VNone
| VBool (b : bool)
| VInt (z : Z)
| VFloat (shown : string)   (* a float, carried as the text [repr] gives it *)
| VStr (s : string)
| VList (l : list value)
| VDict (items : list (string * value)).

Fixpoint dict_lookup (k : string) (items : list (string * value)) : option value :=
  match items with
  | [] => None
  | (k', v) :: rest => if String.eqb k k' then Some v else dict_lookup k rest
  end.

(** Truth value of an object, as [not x] tests it. *)
Definition truthy (v : value) : bool :=
  match v with
  | VNone => false
  | VBool b => b
  | VInt z => negb (z =? 0)
  | VFloat shown => negb (String.eqb shown "0.0" || String.eqb shown "-0.0")
  | VStr s => negb (String.eqb s "")
  | VList l => match l with [] => false | _ => true end
  | VDict items => match items with [] => false | _ => true end
  end.

(** [x.get(k, d)]: only a dict has the method. *)
Definition py_get (x : value) (k : string) (d : value) : result value :=
  match x with
  | VDict items => Ok (default d (dict_lookup k items))
  | _ => Raise (AttributeError "get")
  end.

(** [x[k]] with a string key. *)
Definition py_getitem (x : value) (k : string) : result value :=
  match x with
  | VDict items =>
      match dict_lookup k items with
      | Some v => Ok v
      | None => Raise KeyError
      end
  | _ => Raise TypeError
  end.

(** [x[0]].  The keys of a dict obtained from JSON are strings, so [0] is
    never one of them. *)
Definition py_index0 (x : value) : result value :=
  match x with
  | VList (v :: _) => Ok v
  | VList [] => Raise IndexError
  | VStr (String c _) => Ok (VStr (char c))
  | VStr EmptyString => Raise IndexError
  | VDict _ => Raise KeyError
  | _ => Raise TypeError
  end.

(** [x.lower()]: only a string has the method. *)
Definition py_lower (x : value) : result string :=
  match x with
  | VStr s => Ok (str_lower s)
  | _ => Raise (AttributeError "lower")
  end.

(** The items a [for] loop over [x] visits. *)
Definition py_iter (x : value) : result (list value) :=
  match x with
  | VList l => Ok l
  | VStr s => Ok ((λ c, VStr (char c)) <$> list_ascii_of_string s)
  | VDict items => Ok ((λ kv, VStr kv.1) <$> items)
  | _ => Raise TypeError
  end.

(** *** [repr] and [str] *)

Definition hex_digit (n : N) : ascii :=
  match n with
  | 0 => "0" | 1 => "1" | 2 => "2" | 3 => "3" | 4 => "4" | 5 => "5"
  | 6 => "6" | 7 => "7" | 8 => "8" | 9 => "9" | 10 => "a" | 11 => "b"
  | 12 => "c" | 13 => "d" | 14 => "e" | _ => "f"
  end%char%N.

Definition repr_char (q c : ascii) : string :=
  let n := N_of_ascii c in
  if Ascii.eqb c backslash then String backslash (char backslash)
  else if Ascii.eqb c q then String backslash (char q)
  else if Ascii.eqb c TAB then String backslash "t"
  else if Ascii.eqb c LF then String backslash "n"
  else if Ascii.eqb c CR then String backslash "r"
  else if ((n <? 32) || (n =? 127))%N
       then String backslash (String "x" (String (hex_digit (n / 16)) (char (hex_digit (n mod 16)))))
  else char c.

(** [repr] of a string: single quotes, unless the string has a single quote
    and no double quote. *)
Definition repr_str (s : string) : string :=
  let q := if str_mem squote s && negb (str_mem dquote s) then dquote else squote in
  String q (str_concat_map (repr_char q) s +:+ char q).

Fixpoint py_repr (v : value) : string :=
  match v with
  | VNone => "None"
  | VBool true => "True"
  | VBool false => "False"
  | VInt z => pretty z
  | VFloat shown => shown
  | VStr s => repr_str s
  | VList l => "[" +:+ str_join ", " (map py_repr l) +:+ "]"
  | VDict items =>
      "{" +:+ str_join ", "
                (map (λ kv, let '(k, x) := kv in repr_str k +:+ ": " +:+ py_repr x) items)
          +:+ "}"
  end.

Definition py_str (v : value) : string :=
  match v with
  | VStr s => s
  | _ => py_repr v
  end.

(** ** [csv.writer(f, dialect=csv.excel)]

    The excel dialect: a comma as delimiter, the double quote as quote
    character, doubled inside a quoted field, CR LF as line terminator,
    and minimal quoting: a field is quoted when it holds the delimiter,
    the quote character or a character of the line terminator. *)

Definition csv_special (c : ascii) : bool :=
  Ascii.eqb c "," || Ascii.eqb c dquote || Ascii.eqb c CR || Ascii.eqb c LF.

Fixpoint needs_quotes (s : string) : bool :=
  match s with
  | EmptyString => false
  | String c s' => csv_special c || needs_quotes s'
  end.

Definition escape_quote (c : ascii) : string :=
  if Ascii.eqb c dquote then String dquote (char dquote) else char c.

Definition quote_field (s : string) : string :=
  if needs_quotes s
  then String dquote (str_concat_map escape_quote s +:+ char dquote)
  else s.

Definition CRLF : string := String CR (char LF).

(** One record.  A record that would be empty although it has a field (a
    single empty string) is written as a pair of quotes. *)
Definition csv_record (fields : list string) : string :=
  let line := str_join "," (quote_field <$> fields) in
  match fields, line with
  | _ :: _, EmptyString => String dquote (char dquote) +:+ CRLF
  | _, _ => line +:+ CRLF
  end.

(** What the writer makes of a cell: [None] is empty, a string is itself,
    anything else goes through [str]. *)
Definition csv_cell (v : value) : string :=
  match v with
  | VNone => ""
  | _ => py_str v
  end.

Definition writerow (row : list value) : string := csv_record (csv_cell <$> row).

Fixpoint writerows (rows : list (list value)) : string :=
  match rows with
  | [] => ""
  | row :: rest => writerow row +:+ writerows rest
  end.

(** ** [parse_patient_data]: from entries to rows *)

(** The names of the columns. *)
Definition column_names : list string :=
  ["url"; "resource_id"; "last_updated"; "status"; "system_id"; "active";
   "first_name"; "last_name"; "phone"; "gender"; "address"].

Definition header : list value := map VStr column_names.

(** The names bound at module level: the imports, the configuration and the
    functions. *)
Definition module_globals : list string :=
  ["os"; "json"; "urllib"; "boto3"; "sys"; "csv";
   "output_dir"; "input_bucket_name"; "output_bucket_name"; "sqsqueue_name";
   "aws_region"; "s3"; "sqs";
   "create_dirs"; "parse_patient_data"; "process_data"; "cleanup_files";
   "upload_data"; "get_messages_from_sqs"; "main"].

(** Reading a name that is not a local of the function. *)
Definition load_global (name : string) : result () :=
  if bool_decide (name ∈ module_globals) then Ok () else Raise (NameError name).

(** [print('... %s in %s: please check' % (url, in_file), file=sys.stderr)]:
    the operands of [%] are evaluated before anything is printed, and
    [in_file] is neither a local of [parse_patient_data] (its parameter is
    [input_file]), nor a global, nor a builtin. *)
Definition diagnostic (url : value) : result () :=
  load_global "in_file".

(** Lines 77 to 88: the eleven extractions, in source order. *)
Definition extract_row (url resource : value) : result (list value) :=
  resource_id ← py_get resource "id" (VStr "");
  last_updated ← (meta ← py_get resource "meta" (VDict []);
                  py_get meta "lastUpdated" (VStr ""));
  status ← (text ← py_get resource "text" (VDict []);
            st ← py_get text "status" (VStr "");
            py_lower st);
  system_id ← (text ← py_get resource "text" (VDict []);
               py_get text "value" VNone);
  active ← py_get resource "active" (VBool false);
  first_name ← (name ← py_get resource "name" (VDict []);
                name0 ← py_index0 name;
                given ← py_get name0 "given" (VList [VStr ""]);
                py_index0 given);
  last_name ← (name ← py_get resource "name" (VDict []);
               name0 ← py_index0 name;
               py_get name0 "family" (VList [VStr ""]));
  phone ← (telecom ← py_get resource "telecom" (VList [VDict []]);
           telecom0 ← py_index0 telecom;
           py_get telecom0 "value" (VStr ""));
  gender ← py_get resource "gender" (VStr "");
  address ← (addr ← py_get resource "address" (VList [VDict []]);
             addr0 ← py_index0 addr;
             py_get addr0 "value" (VStr ""));
  Ok [url; resource_id; last_updated; VStr status; system_id; active;
      first_name; last_name; phone; gender; address].

(** One turn of the loop over the entries; [None] is [continue]. *)
Definition parse_entry (entry : value) : result (option (list value)) :=
  url ← py_get entry "fullUrl" (VStr "");
  resource ← py_get entry "resource" (VDict []);
  if negb (truthy resource) then
    diagnostic url;; Ok None
  else
    resource_type ← (rt ← py_get resource "resourceType" (VStr ""); py_lower rt);
    if negb (String.eqb resource_type "patient") then
      diagnostic url;; Ok None
    else
      row ← extract_row url resource;
      Ok (Some row).

Fixpoint parse_entries (entries : list value) (rows : list (list value))
  : result (list (list value)) :=
  match entries with
  | [] => Ok rows
  | entry :: rest =>
      r ← parse_entry entry;
      parse_entries rest (match r with Some row => rows ++ [row] | None => rows end)
  end.

(** Lines 64 to 88 on the parsed document. *)
Definition parse_document (data : value) : result (list (list value)) :=
  entry ← py_get data "entry" (VList []);
  entries ← py_iter entry;
  parse_entries entries [].

(** Lines 90 to 94: the header, then the rows. *)
Definition write_csv (rows : list (list value)) : string :=
  writerow header +:+ writerows rows.

(** ** A JSON reader for the concrete scenarios

    [json.loads] itself is a field of [Runtime].  The scenarios run it as
    [json_loads_ascii], which reads the JSON texts that have integers as
    their only numbers and no [\u] escape in their strings; other texts
    are outside what it models (it answers [ValueError] on them). *)

Definition is_ws (c : ascii) : bool :=
  Ascii.eqb c " " || Ascii.eqb c TAB || Ascii.eqb c LF || Ascii.eqb c CR.

Fixpoint skip_ws (s : string) : string :=
  match s with
  | String c s' => if is_ws c then skip_ws s' else s
  | EmptyString => s
  end.

Fixpoint strip_prefix (p s : string) : option string :=
  match p, s with
  | EmptyString, _ => Some s
  | String a p', String b s' => if Ascii.eqb a b then strip_prefix p' s' else None
  | String _ _, EmptyString => None
  end.

Definition unescape (e : ascii) : option ascii :=
  if Ascii.eqb e dquote then Some dquote
  else if Ascii.eqb e backslash then Some backslash
  else if Ascii.eqb e "/" then Some "/"%char
  else if Ascii.eqb e "b" then Some "008"%char
  else if Ascii.eqb e "f" then Some "012"%char
  else if Ascii.eqb e "n" then Some LF
  else if Ascii.eqb e "r" then Some CR
  else if Ascii.eqb e "t" then Some TAB
  else None.

(** The characters of a string literal, after its opening quote. *)
Fixpoint parse_chars (s : string) : option (string * string) :=
  match s with
  | EmptyString => None
  | String c s' =>
      if Ascii.eqb c dquote then Some ("", s')
      else if Ascii.eqb c backslash then
        match s' with
        | String e s'' =>
            d ← unescape e;
            '(t, r) ← parse_chars s'';
            Some (String d t, r)
        | EmptyString => None
        end
      else if (N_of_ascii c <? 32)%N then None
      else '(t, r) ← parse_chars s'; Some (String c t, r)
  end.

Definition is_digit (c : ascii) : bool :=
  let n := N_of_ascii c in ((48 <=? n) && (n <=? 57))%N.

Fixpoint parse_digits (s : string) (acc : Z) : Z * string :=
  match s with
  | String c s' =>
      if is_digit c then parse_digits s' (10 * acc + (Z.of_N (N_of_ascii c) - 48))
      else (acc, s)
  | EmptyString => (acc, s)
  end.

Definition parse_int (s : string) : option (value * string) :=
  let '(neg, s1) := match s with
                    | String "-" r => (true, r)
                    | _ => (false, s)
                    end in
  match s1 with
  | String c r =>
      if is_digit c then
        let '(n, rest) := if Ascii.eqb c "0" then (0, r) else parse_digits s1 0 in
        let v := VInt (if neg : bool then - n else n) in
        match rest with
        | String d _ =>
            if Ascii.eqb d "." || Ascii.eqb d "e" || Ascii.eqb d "E" then None
            else Some (v, rest)
        | EmptyString => Some (v, rest)
        end
      else None
  | EmptyString => None
  end.

(** A repeated key keeps its place and takes the later value. *)
Fixpoint dict_set (k : string) (v : value) (items : list (string * value))
  : list (string * value) :=
  match items with
  | [] => [(k, v)]
  | (k', v') :: rest =>
      if String.eqb k k' then (k, v) :: rest else (k', v') :: dict_set k v rest
  end.

Fixpoint parse_value (fuel : nat) (s : string) : option (value * string) :=
  match fuel with
  | O => None
  | S fuel' =>
      match skip_ws s with
      | String "{" r =>
          match skip_ws r with
          | String "}" r' => Some (VDict [], r')
          | _ => '(items, r') ← parse_members fuel' r []; Some (VDict items, r')
          end
      | String "[" r =>
          match skip_ws r with
          | String "]" r' => Some (VList [], r')
          | _ => '(l, r') ← parse_elements fuel' r; Some (VList l, r')
          end
      | String c r as s1 =>
          if Ascii.eqb c dquote then '(t, r') ← parse_chars r; Some (VStr t, r')
          else match strip_prefix "null" s1, strip_prefix "true" s1, strip_prefix "false" s1 with
               | Some r', _, _ => Some (VNone, r')
               | _, Some r', _ => Some (VBool true, r')
               | _, _, Some r' => Some (VBool false, r')
               | _, _, _ => parse_int s1
               end
      | EmptyString => None
      end
  end
with parse_elements (fuel : nat) (s : string) : option (list value * string) :=
  match fuel with
  | O => None
  | S fuel' =>
      '(v, r) ← parse_value fuel' s;
      match skip_ws r with
      | String "," r' => '(l, r'') ← parse_elements fuel' r'; Some (v :: l, r'')
      | String "]" r' => Some ([v], r')
      | _ => None
      end
  end
with parse_members (fuel : nat) (s : string) (acc : list (string * value))
  : option (list (string * value) * string) :=
  match fuel with
  | O => None
  | S fuel' =>
      match skip_ws s with
      | String q r =>
          if Ascii.eqb q dquote then
            '(k, r1) ← parse_chars r;
            match skip_ws r1 with
            | String ":" r2 =>
                '(v, r3) ← parse_value fuel' r2;
                let acc' := dict_set k v acc in
                match skip_ws r3 with
                | String "," r4 => parse_members fuel' r4 acc'
                | String "}" r4 => Some (acc', r4)
                | _ => None
                end
            | _ => None
            end
          else None
      | EmptyString => None
      end
  end.

Definition json_loads_ascii (s : string) : result value :=
  match parse_value (2 * String.length s + 2) s with
  | Some (v, rest) =>
      match skip_ws rest with
      | EmptyString => Ok v
      | _ => Raise ValueError
      end
  | None => Raise ValueError
  end.

(** JSON texts are written below with an apostrophe where the text has a
    double quote. *)
Definition dq (s : string) : string :=
  str_map (λ c, if Ascii.eqb c squote then dquote else c) s.

(** ** Paths: the functions of [os.path] the worker uses *)

Definition output_dir : string := "/processed".

(** [s.rfind(c)]: the index of the last [c], or [-1]. *)
Fixpoint rfind_from (c : ascii) (s : string) (i last : Z) : Z :=
  match s with
  | EmptyString => last
  | String d s' => rfind_from c s' (i + 1) (if Ascii.eqb d c then i else last)
  end.

Definition str_rfind (c : ascii) (s : string) : Z := rfind_from c s 0 (-1).

(** [s[i:j]] for [0 <= i]. *)
Definition str_slice (s : string) (i j : Z) : string :=
  substring (Z.to_nat i) (Z.to_nat (j - i)) s.

Definition str_len (s : string) : Z := Z.of_nat (String.length s).

Fixpoint all_dots (s : string) : bool :=
  match s with
  | EmptyString => true
  | String c s' => Ascii.eqb c "." && all_dots s'
  end.

(** [os.path.splitext(p)[0]]: cut at the last dot of the last component,
    unless only dots precede it there. *)
Definition splitext_root (p : string) : string :=
  let sepIndex := str_rfind "/" p in
  let dotIndex := str_rfind "." p in
  if (sepIndex <? dotIndex) && negb (all_dots (str_slice p (sepIndex + 1) dotIndex))
  then str_slice p 0 dotIndex
  else p.

(** [os.path.basename(p)] *)
Definition basename (p : string) : string :=
  str_slice p (str_rfind "/" p + 1) (str_len p).

Definition ends_with_sep (s : string) : bool :=
  str_rfind "/" s =? str_len s - 1.

(** [os.path.join(a, b)] *)
Definition path_join (a b : string) : string :=
  match b with
  | String "/" _ => b
  | _ => if String.eqb a "" || ends_with_sep a then a +:+ b else a +:+ "/" +:+ b
  end.

(** ** The worker *)

(** A received queue message: its receipt handle and its body. *)
Record message := { receipt : string; body : string }.

(** The two calls the worker makes on a message. *)
Inductive call :=
| Delete (m : message)
| ChangeVisibility (m : message) (VisibilityTimeout : Z).

(** The collaborators: library functions, configuration taken from the
    environment, and the S3 and SQS clients acting on the state [cloud] of
    the remote services.  A client call may raise and may change [cloud]. *)
Class Runtime := {
  cloud : Type;
  json_loads : string → result value;
  (* [urllib.unquote_plus(key).encode('utf-8')] *)
  unquote_plus : value → result string;
  input_bucket_name : string;
  output_bucket_name : string;
  sqsqueue_name : string;
  (* [s3.download_file(Bucket, Key, _)]: the contents of the object *)
  s3_download_file : string → string → cloud → result string * cloud;
  (* [s3.upload_file(_, Bucket, Key)], given the contents of the file *)
  s3_upload_file : string → string → string → cloud → result () * cloud;
  (* [sqs.get_queue_by_name(QueueName)]: the queue's URL *)
  sqs_get_queue_by_name : string → cloud → result string * cloud;
  (* [queue.receive_messages(VisibilityTimeout, WaitTimeSeconds, MaxNumberOfMessages)] *)
  queue_receive_messages : string → Z → Z → Z → cloud → result (list message) * cloud;
  message_delete : message → cloud → result () * cloud;
  message_change_visibility : message → Z → cloud → result () * cloud;
}.

Section Worker.
Context `{RT : Runtime}.

(** What the process acts on: the local files, the remote services, and the
    calls made on messages so far (latest last). *)
Record world := World {
  files : gmap string string;
  remote : cloud;
  calls : list call;
}.

(** A statement: runs in a world, returns or raises, leaves a world. *)
Definition M (A : Type) : Type := world → result A * world.

#[global] Instance M_ret : MRet M := λ A a w, (Ok a, w).
#[global] Instance M_bind : MBind M := λ A B f m w,
  match m w with
  | (Ok a, w') => f a w'
  | (Raise e, w') => (Raise e, w')
  end.

Definition lift {A} (r : result A) : M A := λ w, (r, w).

(** [try: m] with the outcome handed to the [except] and [else] clauses. *)
Definition try_catch {A} (m : M A) : M (result A) := λ w,
  let '(r, w') := m w in (Ok r, w').

Definition on_cloud {A} (f : cloud → result A * cloud) : M A := λ w,
  let '(r, c) := f (remote w) in
  (r, World (files w) c (calls w)).

Definition record_call (c : call) : M () := λ w,
  (Ok (), World (files w) (remote w) (calls w ++ [c])).

Definition os_path_exists (path : string) : M bool := λ w,
  (Ok (bool_decide (is_Some (files w !! path))), w).

Definition read_file (path : string) : M string := λ w,
  match files w !! path with
  | Some text => (Ok text, w)
  | None => (Raise (FileNotFoundError path), w)
  end.

Definition write_file (path text : string) : M () := λ w,
  (Ok (), World (<[path := text]> (files w)) (remote w) (calls w)).

Definition os_remove (path : string) : M () := λ w,
  match files w !! path with
  | Some _ => (Ok (), World (delete path (files w)) (remote w) (calls w))
  | None => (Raise (FileNotFoundError path), w)
  end.

(** Directories are not part of the file map: every path lies in a
    directory that exists, which is what [create_dirs] sees to for
    [output_dir]. *)
Definition create_dirs : M () := mret ().

Definition parse_patient_data (input_file output_file : string) : M () :=
  found ← os_path_exists input_file;
  rows ← (if found : bool then
            text ← read_file input_file;
            data ← lift (json_loads text);
            lift (parse_document data)
          else mret []);
  write_file output_file (write_csv rows).

Definition upload_data (output_file : string) : M () :=
  text ← read_file output_file;
  on_cloud (s3_upload_file text output_bucket_name (basename output_file)).

Definition cleanup_files (input_file output_file : string) : M () :=
  os_remove input_file;;
  os_remove (output_dir +:+ "/" +:+ output_file).

Definition get_messages_from_sqs : M (list message) :=
  queue ← on_cloud (sqs_get_queue_by_name sqsqueue_name);
  on_cloud (queue_receive_messages queue 120 20 10).

(** The body of the [try] in [process_data], lines 111 to 119. *)
Definition pipeline (msg : message) : M () :=
  message_content ← lift (json_loads (body msg));
  input_file ← lift (records ← py_getitem message_content "Records";
                     record ← py_index0 records;
                     s3 ← py_getitem record "s3";
                     object ← py_getitem s3 "object";
                     key ← py_getitem object "key";
                     unquote_plus key);
  text ← on_cloud (s3_download_file input_bucket_name input_file);
  write_file input_file text;;
  let output_file := path_join output_dir (splitext_root input_file +:+ ".csv") in
  parse_patient_data input_file output_file;;
  upload_data output_file;;
  cleanup_files input_file output_file.

(** One turn of the loop of [process_data]: [try], [except], [else]. *)
Definition process_message (msg : message) : M () :=
  outcome ← try_catch (pipeline msg);
  match outcome with
  | Raise _ =>
      record_call (ChangeVisibility msg 0);;
      on_cloud (message_change_visibility msg 0)
  | Ok _ =>
      record_call (Delete msg);;
      on_cloud (message_delete msg)
  end.

Fixpoint for_each {A} (l : list A) (body : A → M ()) : M () :=
  match l with
  | [] => mret ()
  | a :: rest => body a;; for_each rest body
  end.

Definition process_data : M () :=
  messages ← get_messages_from_sqs;
  for_each messages process_message.

(** [while True: process_data()], cut after [n] turns: the result is [Ok]
    when all [n] turns ran, and the exception that left the loop
    otherwise. *)
Fixpoint worker_loop (n : nat) : M () :=
  match n with
  | O => mret ()
  | S n' => process_data;; worker_loop n'
  end.

Definition main (n : nat) : M () :=
  create_dirs;;
  worker_loop n.

(** A statement that makes no call on a message. *)
Definition keeps_calls {A} (m : M A) : Prop :=
  ∀ w, calls (m w).2 = calls w.

(** The calls made on the queue itself return normally. *)
Definition queue_calls_succeed : Prop :=
  (∀ name c, ∃ url, (sqs_get_queue_by_name name c).1 = Ok url) ∧
  (∀ queue vt wt mx c, ∃ batch, (queue_receive_messages queue vt wt mx c).1 = Ok batch) ∧
  (∀ msg c, (message_delete msg c).1 = Ok ()) ∧
  (∀ msg vt c, (message_change_visibility msg vt c).1 = Ok ()).

End Worker.

Arguments world : clear implicits.
Arguments M : clear implicits.

(** ** A simulated deployment for the concrete scenarios

    S3 is a map from bucket and key to contents.  SQS is a list of waiting
    messages and a list of received ones: receiving moves messages from the
    first to the second, deleting drops a received message, and a
    visibility timeout of zero makes it wait again.  [sqs_up] says whether
    the queue service answers at all. *)

Record sim_cloud := SimCloud {
  objects : gmap (string * string) string;
  waiting : list message;
  in_flight : list message;
}.

#[global] Instance message_eq_dec : EqDecision message.
Proof. solve_decision. Defined.

Definition hex_value (c : ascii) : option N :=
  let n := N_of_ascii c in
  if ((48 <=? n) && (n <=? 57))%N then Some (n - 48)%N
  else if ((65 <=? n) && (n <=? 70))%N then Some (n - 55)%N
  else if ((97 <=? n) && (n <=? 102))%N then Some (n - 87)%N
  else None.

Fixpoint unquote (s : string) : string :=
  match s with
  | EmptyString => ""
  | String c s' =>
      if Ascii.eqb c "%" then
        match s' with
        | String a (String b r) =>
            match hex_value a, hex_value b with
            | Some x, Some y => String (ascii_of_N (16 * x + y)) (unquote r)
            | _, _ => String c (unquote s')
            end
        | _ => String c (unquote s')
        end
      else String c (unquote s')
  end.

Definition sim_unquote_plus (v : value) : result string :=
  match v with
  | VStr s => Ok (unquote (str_map (λ c, if Ascii.eqb c "+" then " "%char else c) s))
  | _ => Raise (AttributeError "replace")
  end.

Definition sim_service {A} (up : bool) (f : sim_cloud → result A * sim_cloud)
  : sim_cloud → result A * sim_cloud :=
  λ c, if up then f c else (Raise (ServiceError "sqs"), c).

Definition sim_runtime (sqs_up : bool) : Runtime := {|
  cloud := sim_cloud;
  json_loads := json_loads_ascii;
  unquote_plus := sim_unquote_plus;
  input_bucket_name := "in-bucket";
  output_bucket_name := "out-bucket";
  sqsqueue_name := "batch-queue";
  s3_download_file bucket key := λ c,
    match objects c !! (bucket, key) with
    | Some text => (Ok text, c)
    | None => (Raise (ServiceError "NoSuchKey"), c)
    end;
  s3_upload_file text bucket key := λ c,
    (Ok (), SimCloud (<[(bucket, key) := text]> (objects c)) (waiting c) (in_flight c));
  sqs_get_queue_by_name name := sim_service sqs_up (λ c, (Ok name, c));
  queue_receive_messages queue vt wt mx := sim_service sqs_up (λ c,
    let batch := take (Z.to_nat mx) (waiting c) in
    (Ok batch, SimCloud (objects c) (drop (Z.to_nat mx) (waiting c)) (in_flight c ++ batch)));
  message_delete msg := sim_service sqs_up (λ c,
    (Ok (), SimCloud (objects c) (waiting c) (filter (λ m, m ≠ msg) (in_flight c))));
  message_change_visibility msg vt := sim_service sqs_up (λ c,
    (Ok (), if vt =? 0
            then SimCloud (objects c) (waiting c ++ [msg]) (filter (λ m, m ≠ msg) (in_flight c))
            else c));
|}.

Definition empty_cloud : sim_cloud := SimCloud ∅ [] [].

(** The local files and the service state of a simulated world. *)
Definition sim_world (up : bool) (fs : gmap string string) (c : sim_cloud)
  : world (sim_runtime up) :=
  @World (sim_runtime up) fs c [].

(** ** Reading the output back: [csv.reader(f, dialect=csv.excel)]

    The reader that pairs with the writer above.  The file, opened with
    [newline=''], is iterated line by line, a line ending after a line
    feed, after a carriage return followed by a line feed, or after a
    lone carriage return.  The reader takes the characters of a line one
    by one and then the end-of-line mark; a record is complete when that
    leaves it at the start of a record. *)

Inductive parser_state :=
| START_RECORD
| START_FIELD
| IN_FIELD
| IN_QUOTED_FIELD
| QUOTE_IN_QUOTED_FIELD
| EAT_CRNL.

Record reader := Reader {
  state : parser_state;
  field : string;
  fields : list string;
}.

Inductive input :=
| Char (c : ascii)
| EOL.

Definition parse_reset : reader := Reader START_RECORD "" [].

Definition parse_save_field (st : parser_state) (r : reader) : reader :=
  Reader st "" (fields r ++ [field r]).

Definition parse_add_char (st : parser_state) (c : ascii) (r : reader) : reader :=
  Reader st (field r +:+ char c) (fields r).

Definition set_state (st : parser_state) (r : reader) : reader :=
  Reader st (field r) (fields r).

Definition is_newline (c : ascii) : bool := Ascii.eqb c LF || Ascii.eqb c CR.

Definition start_field (r : reader) (i : input) : option reader :=
  match i with
  | EOL => Some (parse_save_field START_RECORD r)
  | Char c =>
      if is_newline c then Some (parse_save_field EAT_CRNL r)
      else if Ascii.eqb c dquote then Some (set_state IN_QUOTED_FIELD r)
      else if Ascii.eqb c "," then Some (parse_save_field START_FIELD r)
      else Some (parse_add_char IN_FIELD c r)
  end.

Definition parse_process_char (r : reader) (i : input) : option reader :=
  match state r, i with
  | START_RECORD, EOL => Some r
  | START_RECORD, Char c =>
      if is_newline c then Some (set_state EAT_CRNL r) else start_field r i
  | START_FIELD, _ => start_field r i
  | IN_FIELD, EOL => Some (parse_save_field START_RECORD r)
  | IN_FIELD, Char c =>
      if is_newline c then Some (parse_save_field EAT_CRNL r)
      else if Ascii.eqb c "," then Some (parse_save_field START_FIELD r)
      else Some (parse_add_char IN_FIELD c r)
  | IN_QUOTED_FIELD, EOL => Some r
  | IN_QUOTED_FIELD, Char c =>
      if Ascii.eqb c dquote then Some (set_state QUOTE_IN_QUOTED_FIELD r)
      else Some (parse_add_char IN_QUOTED_FIELD c r)
  | QUOTE_IN_QUOTED_FIELD, EOL => Some (parse_save_field START_RECORD r)
  | QUOTE_IN_QUOTED_FIELD, Char c =>
      if Ascii.eqb c dquote then Some (parse_add_char IN_QUOTED_FIELD c r)
      else if Ascii.eqb c "," then Some (parse_save_field START_FIELD r)
      else if is_newline c then Some (parse_save_field EAT_CRNL r)
      else Some (parse_add_char IN_FIELD c r)
  | EAT_CRNL, EOL => Some (set_state START_RECORD r)
  | EAT_CRNL, Char c => if is_newline c then Some r else None
  end.

(** The lines of a text, each with its ending. *)
Fixpoint file_lines (s : string) : list string :=
  match s with
  | EmptyString => []
  | String c s' =>
      if Ascii.eqb c LF then char LF :: file_lines s'
      else if Ascii.eqb c CR then
        match s' with
        | String d s'' =>
            if Ascii.eqb d LF then CRLF :: file_lines s'' else char CR :: file_lines s'
        | EmptyString => [char CR]
        end
      else
        match file_lines s' with
        | [] => [char c]
        | line :: rest => String c line :: rest
        end
  end.

(** The characters of a line, then the end-of-line mark. *)
Fixpoint feed_line (r : reader) (line : string) : option reader :=
  match line with
  | EmptyString => parse_process_char r EOL
  | String c line' => r' ← parse_process_char r (Char c); feed_line r' line'
  end.

Definition at_record_start (r : reader) : bool :=
  match state r with
  | START_RECORD => true
  | _ => false
  end.

Definition unfinished (r : reader) : bool :=
  negb (String.eqb (field r) "")
  || match state r with IN_QUOTED_FIELD => true | _ => false end.

(** The records of the lines: a record ends with the line that leaves the
    reader at the start of a record; when the lines run out inside a
    record, what was read of it is the last record. *)
Fixpoint read_records (lines : list string) (r : reader) : option (list (list string)) :=
  match lines with
  | [] =>
      if unfinished r then Some [(fields r ++ [field r])%list] else Some []
  | line :: rest =>
      r' ← feed_line r line;
      if at_record_start r'
      then records ← read_records rest parse_reset; Some (fields r' :: records)
      else read_records rest r'
  end.

Definition csv_reader (text : string) : option (list (list string)) :=
  read_records (file_lines text) parse_reset.

(** The reader in the middle of a line, with the text still to come. *)
Definition read_text (r : reader) (s : string) : option (list (list string)) :=
  read_records (file_lines s) r.

(** What follows a completed line. *)
Definition next_line (r : reader) (s : string) : option (list (list string)) :=
  if at_record_start r
  then records ← read_text parse_reset s; Some (fields r :: records)
  else read_text r s.

Definition starts_with_LF (s : string) : bool :=
  match s with
  | String d _ => Ascii.eqb d LF
  | EmptyString => false
  end.

(** The states in which a field begins. *)
Definition fresh (st : parser_state) : Prop := st = START_RECORD ∨ st = START_FIELD.

(** ** The key a notification names *)



(** The call that settles a message: its deletion or its return to the
    queue. *)
Definition settles (msg : message) (c : call) : Prop :=
  c = Delete msg ∨ c = ChangeVisibility msg 0.


(** ** The scenarios *)

(** The header line of every output file. *)
Definition csv_header_line : string :=
  "url,resource_id,last_updated,status,system_id,active,first_name,last_name,phone,gender,address".

(** A world whose only local file is [in.json] with the given text. *)
Definition with_input (text : string) : world (sim_runtime true) :=
  sim_world true {[ "in.json" := text ]} empty_cloud.

Definition ann_lee_bundle : string :=
  dq "{'entry':[{'fullUrl':'u1','resource':{'resourceType':'Patient','id':'p1','active':true,'gender':'female','name':[{'given':['Ann'],'family':['Lee']}],'telecom':[{'value':'555-1234'}],'address':[{'value':'1 Main St'}]}}]}".

(** A patient without a name. *)
Definition nameless_patient_bundle : string :=
  dq "{'entry':[{'fullUrl':'u1','resource':{'resourceType':'Patient','id':'p1'}}]}".

(** An entry that is not a patient, followed by a patient. *)
Definition observation_then_patient_bundle : string :=
  dq "{'entry':[{'fullUrl':'u0','resource':{'resourceType':'Observation','id':'o1'}},{'fullUrl':'u1','resource':{'resourceType':'Patient','id':'p1','name':[{'given':['Ann'],'family':['Lee']}]}}]}".

(** An entry without a resource. *)
Definition no_resource_bundle : string :=
  dq "{'entry':[{'fullUrl':'u0'}]}".



(** A notification for the object [foo.json], which holds the Ann Lee
    bundle in the input bucket. *)
Definition foo_message : message :=
  {| receipt := "r1";
     body := dq "{'Records':[{'s3':{'object':{'key':'foo.json'}}}]}" |}.

Definition foo_cloud : sim_cloud :=
  SimCloud {[ ("in-bucket", "foo.json") := ann_lee_bundle ]} [] [foo_message].



(** A notification whose body is not JSON. *)
Definition bad_message : message := {| receipt := "r2"; body := "not json" |}.




(** A queue with two waiting messages. *)
Definition two_waiting : sim_cloud :=
  SimCloud {[ ("in-bucket", "foo.json") := ann_lee_bundle ]}
           [bad_message; foo_message] [].

(** * Properties *)

(** ** Strings *)

Lemma str_app_nil (t : string) : "" +:+ t = t.
Proof. reflexivity. Qed.

Lemma str_app_cons (c : ascii) (s t : string) : String c s +:+ t = String c (s +:+ t).
Proof. reflexivity. Qed.

Lemma str_app_assoc (s t u : string) : (s +:+ t) +:+ u = s +:+ (t +:+ u).
Proof.
  induction s as [|c s IH]; [reflexivity|].
  rewrite !str_app_cons. by rewrite IH.
Qed.


Lemma str_app_empty_r (s : string) : s +:+ "" = s.
Proof. induction s as [|c s IH]; [done|]. by rewrite str_app_cons, IH. Qed.

Lemma str_app_nonempty (s t : string) : t ≠ "" → s +:+ t ≠ "".
Proof. destruct s; [done|]. by rewrite str_app_cons. Qed.

Lemma str_app_char (f : string) (c : ascii) (s : string) :
  (f +:+ String c "") +:+ s = f +:+ String c s.
Proof. by rewrite str_app_assoc. Qed.

Create Rewrite HintDb str.
#[local] Hint Rewrite str_app_assoc str_app_cons str_app_nil : str.

(** Bring a text to the form [String c1 (String c2 (... +:+ ...))]. *)
Ltac normalise := unfold CRLF; unfold char; autorewrite with str.

Ltac nonempty :=
  solve [ discriminate
        | assumption
        | apply str_app_nonempty; nonempty ].


(** ** The concrete extraction scenario *)

(** C1: on the bundle with the single patient Ann Lee, [parse_patient_data]
    returns normally and the output file holds the header line followed by
    exactly one record, [u1,p1,,,,True,Ann,['Lee'],555-1234,female,1 Main St];
    the family name keeps its list rendering. *)
Theorem parse_patient_data_ann_lee :
  let out := parse_patient_data "in.json" "out.csv" (with_input ann_lee_bundle) in
  out.1 = Ok () ∧
  files out.2 !! "out.csv" =
    Some (csv_header_line +:+ CRLF +:+
          "u1,p1,,,,True,Ann,['Lee'],555-1234,female,1 Main St" +:+ CRLF).
Proof. vm_compute. split; reflexivity. Qed.

(** ** Missing fields *)

(** C2 (the code departs from it): a patient without a [name] key makes the
    extraction raise [KeyError], since the default [{}] is indexed with
    [0]; no output file is written. *)
Theorem parse_patient_data_nameless_patient :
  let out := parse_patient_data "in.json" "out.csv" (with_input nameless_patient_bundle) in
  out.1 = Raise KeyError ∧ files out.2 !! "out.csv" = None.
Proof. vm_compute. split; reflexivity. Qed.

(** The sibling extractions do what the one of the name misses: with the
    name present and every other key absent the row is produced, with the
    default of each column. *)
Lemma extract_row_defaults url :
  extract_row url (VDict [("resourceType", VStr "Patient"); ("name", VList [VDict []])])
  = Ok [url; VStr ""; VStr ""; VStr ""; VNone; VBool false;
        VStr ""; VList [VStr ""]; VStr ""; VStr ""; VStr ""].
Proof. reflexivity. Qed.

(** Without a [name] key the row is never produced, whatever else the
    resource holds. *)
Lemma extract_row_nameless url items :
  dict_lookup "name" items = None →
  raised (extract_row url (VDict items)).
Proof.
  intros Hname. unfold extract_row, raised, mbind, result_bind, py_get.
  rewrite Hname. simpl.
  repeat case_match; eauto.
Qed.

(** ** Entries that are skipped *)

(** C7 (the code departs from it): an entry that is not a patient, and an
    entry without a resource, make [parse_patient_data] raise
    [NameError] for [in_file] while building the diagnostic; the entries
    after it are not extracted and no output file is written. *)
Theorem parse_patient_data_skipped_entry :
  let out1 := parse_patient_data "in.json" "out.csv"
                (with_input observation_then_patient_bundle) in
  let out2 := parse_patient_data "in.json" "out.csv" (with_input no_resource_bundle) in
  (out1.1 = Raise (NameError "in_file") ∧ files out1.2 !! "out.csv" = None) ∧
  (out2.1 = Raise (NameError "in_file") ∧ files out2.2 !! "out.csv" = None).
Proof. vm_compute. repeat split; reflexivity. Qed.

(** Every diagnostic raises: [in_file] is bound nowhere. *)
Lemma diagnostic_raises url : diagnostic url = Raise (NameError "in_file").
Proof. reflexivity. Qed.

(** So a turn of the loop never ends in [continue]: an entry either gives
    a row or stops the extraction. *)
Lemma parse_entry_never_skips entry : parse_entry entry ≠ Ok None.
Proof.
  unfold parse_entry.
  destruct (py_get entry "fullUrl" (VStr "")) as [url|]; [simpl|done].
  destruct (py_get entry "resource" (VDict [])) as [resource|]; [simpl|done].
  destruct (negb (truthy resource)); [done|].
  destruct (py_get resource "resourceType" (VStr "")) as [rt|]; [simpl|done].
  destruct (py_lower rt) as [resource_type|]; [simpl|done].
  destruct (negb (String.eqb resource_type "patient")); [done|].
  by destruct (extract_row url resource).
Qed.

(** When the loop ends normally, every entry has given a row. *)
Lemma parse_entries_length entries : ∀ rows rows',
  parse_entries entries rows = Ok rows' →
  length rows' = (length rows + length entries)%nat.
Proof.
  induction entries as [|entry entries IH]; intros rows rows' Hrun; simpl in *.
  - injection Hrun as <-. lia.
  - pose proof (parse_entry_never_skips entry) as Hskip.
    destruct (parse_entry entry) as [[row|]|]; simpl in Hrun; [|done..].
    apply IH in Hrun. rewrite Hrun, length_app. simpl. lia.
Qed.

(** ** Inputs without rows *)

Section Extraction.
Context `{RT : Runtime}.





End Extraction.






(** ** The worker: acknowledging and retrying *)

Section WorkerProperties.
Context `{RT : Runtime}.

Lemma keeps_calls_ret {A} (a : A) : keeps_calls (RT := RT) (mret a).
Proof. intros w. reflexivity. Qed.

Lemma keeps_calls_bind {A B} (m : M RT A) (f : A → M RT B) :
  keeps_calls m → (∀ a, keeps_calls (f a)) → keeps_calls (m ≫= f).
Proof.
  intros Hm Hf w. unfold mbind, M_bind.
  specialize (Hm w). destruct (m w) as [[a|e] w']; simpl in *.
  - rewrite Hf. exact Hm.
  - exact Hm.
Qed.

Lemma keeps_calls_lift {A} (r : result A) : keeps_calls (RT := RT) (lift r).
Proof. intros w. reflexivity. Qed.

Lemma keeps_calls_on_cloud {A} (f : cloud → result A * cloud) :
  keeps_calls (on_cloud f).
Proof. intros w. unfold on_cloud. destruct (f (remote w)). reflexivity. Qed.

Lemma keeps_calls_exists path : keeps_calls (RT := RT) (os_path_exists path).
Proof. intros w. reflexivity. Qed.

Lemma keeps_calls_read path : keeps_calls (RT := RT) (read_file path).
Proof. intros w. unfold read_file. destruct (files w !! path); reflexivity. Qed.

Lemma keeps_calls_write path text : keeps_calls (RT := RT) (write_file path text).
Proof. intros w. reflexivity. Qed.

Lemma keeps_calls_remove path : keeps_calls (RT := RT) (os_remove path).
Proof. intros w. unfold os_remove. destruct (files w !! path); reflexivity. Qed.

Create HintDb calls.
#[local] Hint Resolve keeps_calls_ret keeps_calls_lift keeps_calls_on_cloud
  keeps_calls_exists keeps_calls_read keeps_calls_write keeps_calls_remove : calls.

Ltac keeps_calls_step :=
  repeat first
    [ apply keeps_calls_bind; [ | intros ? ]
    | match goal with |- keeps_calls (if ?b then _ else _) => destruct b end
    | solve [ auto with calls ] ].

Lemma keeps_calls_parse input_file output_file :
  keeps_calls (parse_patient_data input_file output_file).
Proof. unfold parse_patient_data. keeps_calls_step. Qed.

Lemma keeps_calls_upload output_file : keeps_calls (upload_data output_file).
Proof. unfold upload_data. keeps_calls_step. Qed.

Lemma keeps_calls_cleanup input_file output_file :
  keeps_calls (cleanup_files input_file output_file).
Proof. unfold cleanup_files. keeps_calls_step. Qed.

#[local] Hint Resolve keeps_calls_parse keeps_calls_upload keeps_calls_cleanup : calls.

Lemma keeps_calls_pipeline msg : keeps_calls (pipeline msg).
Proof. unfold pipeline. keeps_calls_step. Qed.


End WorkerProperties.


(** ** Cleaning up *)


Section Cleanup.
Context `{RT : Runtime}.



End Cleanup.

(** ** The loop *)

(** The queue service down: fetching the batch raises, nothing catches it,
    and the first turn of the loop ends the worker. *)
Lemma fetch_error_leaves_loop :
  (main 1 (sim_world false ∅ foo_cloud)).1 = Raise (ServiceError "sqs").
Proof. vm_compute. reflexivity. Qed.

Section Loop.
Context `{RT : Runtime}.
Hypothesis queue_ok : queue_calls_succeed.

(** Whatever the steps for a message do, its turn of the loop returns
    normally. *)
Lemma process_message_returns msg (w : world RT) :
  (process_message msg w).1 = Ok ().
Proof.
  destruct queue_ok as (_ & _ & Hdel & Hvis).
  unfold process_message, try_catch, mbind, M_bind.
  destruct (pipeline msg w) as [[[]|e] w']; simpl; unfold on_cloud; simpl.
  - specialize (Hdel msg (remote w')).
    destruct (message_delete msg (remote w')); simpl in *. done.
  - specialize (Hvis msg 0 (remote w')).
    destruct (message_change_visibility msg 0 (remote w')); simpl in *. done.
Qed.

Lemma for_each_returns (batch : list message) (w : world RT) :
  (for_each batch process_message w).1 = Ok ().
Proof.
  revert w. induction batch as [|msg batch IH]; intros w; [reflexivity|].
  simpl. unfold mbind, M_bind.
  pose proof (process_message_returns msg w) as Hmsg.
  destruct (process_message msg w) as [[[]|e] w']; simpl in *; [apply IH | done].
Qed.

Lemma process_data_returns (w : world RT) : (process_data w).1 = Ok ().
Proof.
  destruct queue_ok as (Hget & Hrecv & _ & _).
  unfold process_data, get_messages_from_sqs, mbind, M_bind, on_cloud.
  specialize (Hget sqsqueue_name (remote w)) as [url Hurl].
  destruct (sqs_get_queue_by_name sqsqueue_name (remote w)) as [r c]; simpl in *.
  subst r.
  specialize (Hrecv url 120 20 10 c) as [batch Hbatch].
  destruct (queue_receive_messages url 120 20 10 c) as [r c']; simpl in *.
  subst r. apply for_each_returns.
Qed.

Lemma worker_loop_returns (n : nat) (w : world RT) : (worker_loop n w).1 = Ok ().
Proof.
  revert w. induction n as [|n IH]; intros w; [reflexivity|].
  simpl. unfold mbind, M_bind.
  pose proof (process_data_returns w) as Hturn.
  destruct (process_data w) as [[[]|e] w']; simpl in *; [apply IH | done].
Qed.

End Loop.

(** C8, as the code has it: every exception of the steps for a message is
    caught in that message's turn; as long as the calls on the queue itself
    (finding it, receiving, deleting, changing visibility) return normally,
    no exception leaves the loop, which goes through any number of turns. *)
Theorem worker_never_stops `{RT : Runtime} (n : nat) (w : world RT) :
  queue_calls_succeed →
  (main n w).1 = Ok ().
Proof.
  intros Hq. unfold main, create_dirs.
  change ((worker_loop n w).1 = Ok ()).
  by apply worker_loop_returns.
Qed.

Lemma sim_queue_calls_succeed : queue_calls_succeed (RT := sim_runtime true).
Proof.
  repeat split; intros; simpl; try (eexists; reflexivity); reflexivity.
Defined.

Lemma worker_never_stops_witness :
  (main 5 (sim_world true ∅
             (SimCloud {[ ("in-bucket", "foo.json") := ann_lee_bundle ]}
                       [bad_message; foo_message] []))).1 = Ok ().
Proof.
  apply (worker_never_stops (RT := sim_runtime true)).
  exact sim_queue_calls_succeed.
Defined.

(** ** The round trip through the writer and the reader *)

Lemma file_lines_nil s : file_lines s = [] → s = "".
Proof.
  destruct s as [|c s]; [done|]. simpl.
  destruct (Ascii.eqb c LF); [done|].
  destruct (Ascii.eqb c CR).
  - destruct s as [|d s]; [done|]. by destruct (Ascii.eqb d LF).
  - by destruct (file_lines s).
Qed.

Lemma read_text_char r c s :
  is_newline c = false → s ≠ "" →
  read_text r (String c s) = r' ← parse_process_char r (Char c); read_text r' s.
Proof.
  intros Hc Hs. unfold is_newline in Hc. apply orb_false_iff in Hc as [HLF HCR].
  unfold read_text. simpl file_lines. rewrite HLF, HCR.
  destruct (file_lines s) as [|line rest] eqn:Hlines.
  { by apply file_lines_nil in Hlines. }
  simpl. by destruct (parse_process_char r (Char c)).
Qed.

Lemma read_text_LF r s :
  read_text r (String LF s)
  = r1 ← parse_process_char r (Char LF); r2 ← parse_process_char r1 EOL; next_line r2 s.
Proof.
  unfold read_text, next_line. simpl.
  destruct (parse_process_char r (Char LF)) as [r1|]; [|done]. simpl.
  by destruct (parse_process_char r1 EOL).
Qed.

Lemma read_text_CRLF r s :
  read_text r (String CR (String LF s))
  = r1 ← parse_process_char r (Char CR);
    r2 ← parse_process_char r1 (Char LF);
    r3 ← parse_process_char r2 EOL;
    next_line r3 s.
Proof.
  unfold read_text, next_line. simpl.
  destruct (parse_process_char r (Char CR)) as [r1|]; [|done]. simpl.
  destruct (parse_process_char r1 (Char LF)) as [r2|]; [|done]. simpl.
  by destruct (parse_process_char r2 EOL).
Qed.

Lemma read_text_CR r s :
  starts_with_LF s = false →
  read_text r (String CR s)
  = r1 ← parse_process_char r (Char CR); r2 ← parse_process_char r1 EOL; next_line r2 s.
Proof.
  intros Hs. unfold read_text, next_line.
  assert (file_lines (String CR s) = char CR :: file_lines s) as ->.
  { simpl. destruct s as [|d s]; [done|]. simpl in Hs. by rewrite Hs. }
  simpl.
  destruct (parse_process_char r (Char CR)) as [r1|]; [|done]. simpl.
  by destruct (parse_process_char r1 EOL).
Qed.

Lemma escape_quote_dquote : escape_quote dquote = String dquote (String dquote "").
Proof. reflexivity. Qed.

Lemma escape_quote_other c : Ascii.eqb c dquote = false → escape_quote c = String c "".
Proof. intros H. unfold escape_quote. by rewrite H. Qed.

Lemma str_concat_map_cons f c s :
  str_concat_map f (String c s) = f c +:+ str_concat_map f s.
Proof. reflexivity. Qed.

Lemma starts_with_LF_escaped d s t :
  Ascii.eqb d LF = false →
  starts_with_LF (str_concat_map escape_quote (String d s) +:+ t) = false.
Proof.
  intros Hd. rewrite str_concat_map_cons. unfold escape_quote.
  destruct (Ascii.eqb d dquote); normalise; simpl; [done|exact Hd].
Qed.

#[local] Arguments str_concat_map : simpl never.

Lemma step_in_quoted f fs c :
  Ascii.eqb c dquote = false →
  parse_process_char (Reader IN_QUOTED_FIELD f fs) (Char c)
  = Some (Reader IN_QUOTED_FIELD (f +:+ String c "") fs).
Proof. intros H. unfold parse_process_char. cbn [state]. by rewrite H. Qed.

(** Inside the quotes: the escaped characters of [s] are read back as [s],
    whatever line ends it holds. *)
Lemma read_quoted_content n : ∀ s f fs rest,
  (String.length s ≤ n)%nat →
  read_text (Reader IN_QUOTED_FIELD f fs)
            (str_concat_map escape_quote s +:+ String dquote rest)
  = read_text (Reader IN_QUOTED_FIELD (f +:+ s) fs) (String dquote rest).
Proof.
  induction n as [|n IH]; intros s f fs rest Hlen.
  { destruct s; [|simpl in Hlen; lia]. by rewrite str_app_empty_r. }
  destruct s as [|c s]; [by rewrite str_app_empty_r|].
  simpl in Hlen. rewrite str_concat_map_cons.
  destruct (Ascii.eqb c dquote) eqn:Hdq.
  { apply Ascii.eqb_eq in Hdq as ->.
    rewrite escape_quote_dquote. normalise.
    rewrite read_text_char by (reflexivity || nonempty). simpl.
    rewrite read_text_char by (reflexivity || nonempty). simpl.
    unfold set_state, parse_add_char, char; simpl.
    rewrite IH by lia. by rewrite str_app_char. }
  rewrite escape_quote_other by done. normalise.
  destruct (Ascii.eqb c LF) eqn:HLF.
  { apply Ascii.eqb_eq in HLF as ->.
    rewrite read_text_LF. simpl. unfold next_line, parse_add_char, char; simpl.
    rewrite IH by lia. by rewrite str_app_char. }
  destruct (Ascii.eqb c CR) eqn:HCR.
  { apply Ascii.eqb_eq in HCR as ->.
    destruct s as [|d s].
    - simpl str_concat_map. normalise.
      rewrite read_text_CR by done. simpl. by unfold next_line, parse_add_char, char.
    - destruct (Ascii.eqb d LF) eqn:HdLF.
      + apply Ascii.eqb_eq in HdLF as ->. rewrite str_concat_map_cons.
        rewrite escape_quote_other by done. normalise.
        rewrite read_text_CRLF. simpl. unfold next_line, parse_add_char, char; simpl.
        simpl in Hlen. rewrite IH by lia.
        by rewrite !str_app_assoc.
      + rewrite read_text_CR by (by apply starts_with_LF_escaped).
        simpl. unfold next_line, parse_add_char, char; simpl.
        rewrite IH by (simpl in *; lia). by rewrite str_app_char. }
  rewrite read_text_char; [|by unfold is_newline; rewrite HLF, HCR|nonempty].
  rewrite step_in_quoted by done. simpl.
  rewrite IH by lia. by rewrite str_app_char.
Qed.

Lemma csv_special_false c :
  csv_special c = false →
  Ascii.eqb c "," = false ∧ Ascii.eqb c dquote = false ∧ is_newline c = false.
Proof.
  unfold csv_special, is_newline. intros H.
  destruct (Ascii.eqb c ","), (Ascii.eqb c dquote), (Ascii.eqb c CR), (Ascii.eqb c LF);
    simpl in *; done.
Qed.

Lemma step_in_field f fs c :
  csv_special c = false →
  parse_process_char (Reader IN_FIELD f fs) (Char c)
  = Some (Reader IN_FIELD (f +:+ String c "") fs).
Proof.
  intros (Hcomma & _ & Hnl)%csv_special_false.
  unfold parse_process_char. cbn [state]. by rewrite Hnl, Hcomma.
Qed.

Lemma step_start_plain st fs c :
  fresh st → csv_special c = false →
  parse_process_char (Reader st "" fs) (Char c) = Some (Reader IN_FIELD (String c "") fs).
Proof.
  intros Hst (Hcomma & Hdq & Hnl)%csv_special_false.
  unfold parse_process_char, start_field.
  destruct Hst as [-> | ->]; cbn [state]; by rewrite Hnl, Hdq, Hcomma.
Qed.

Lemma step_start_quote st fs :
  fresh st →
  parse_process_char (Reader st "" fs) (Char dquote) = Some (Reader IN_QUOTED_FIELD "" fs).
Proof. by intros [-> | ->]. Qed.

Lemma step_start_comma st fs :
  fresh st →
  parse_process_char (Reader st "" fs) (Char ",") = Some (Reader START_FIELD "" (fs ++ [""])).
Proof. by intros [-> | ->]. Qed.

(** An unquoted field is read back character by character. *)
Lemma read_plain_content s : ∀ f fs tail,
  needs_quotes s = false → tail ≠ "" →
  read_text (Reader IN_FIELD f fs) (s +:+ tail)
  = read_text (Reader IN_FIELD (f +:+ s) fs) tail.
Proof.
  induction s as [|c s IH]; intros f fs tail Hs Htail.
  { by rewrite str_app_empty_r. }
  simpl in Hs. apply orb_false_iff in Hs as [Hc Hs].
  normalise.
  rewrite read_text_char;
    [|by apply csv_special_false in Hc as (_ & _ & ?)|nonempty].
  rewrite step_in_field by done. simpl.
  rewrite IH by done. by rewrite str_app_char.
Qed.

(** A field and the comma after it. *)
Lemma read_field_comma st s fs rest :
  fresh st → rest ≠ "" →
  read_text (Reader st "" fs) (quote_field s +:+ String "," rest)
  = read_text (Reader START_FIELD "" (fs ++ [s])) rest.
Proof.
  intros Hst Hrest. unfold quote_field.
  destruct (needs_quotes s) eqn:Hq.
  - normalise.
    rewrite read_text_char by (reflexivity || nonempty).
    rewrite step_start_quote by done. simpl.
    rewrite (read_quoted_content (String.length s)) by done.
    rewrite str_app_nil.
    rewrite read_text_char by (reflexivity || nonempty). simpl.
    by rewrite read_text_char by (reflexivity || done).
  - destruct s as [|c s].
    + normalise. rewrite read_text_char by (reflexivity || done).
      by rewrite step_start_comma.
    + simpl in Hq. apply orb_false_iff in Hq as [Hc Hs].
      normalise.
      rewrite read_text_char;
        [|by apply csv_special_false in Hc as (_ & _ & ?)|nonempty].
      rewrite step_start_plain by done. simpl.
      rewrite read_plain_content by done. normalise.
      by rewrite read_text_char by (reflexivity || done).
Qed.

(** The last field of a record and the line end after it. *)
Lemma read_field_end st s fs rest :
  fresh st → st = START_FIELD ∨ quote_field s ≠ "" →
  read_text (Reader st "" fs) (quote_field s +:+ String CR (String LF rest))
  = records ← read_text parse_reset rest; Some ((fs ++ [s])%list :: records).
Proof.
  intros Hst Hne. unfold quote_field in *.
  destruct (needs_quotes s) eqn:Hq.
  - normalise.
    rewrite read_text_char by (reflexivity || nonempty).
    rewrite step_start_quote by done. simpl.
    rewrite (read_quoted_content (String.length s)) by done.
    rewrite str_app_nil.
    rewrite read_text_char by (reflexivity || nonempty). simpl.
    by rewrite read_text_CRLF.
  - destruct s as [|c s].
    + destruct Hne as [-> | ?]; [|done].
      normalise. by rewrite read_text_CRLF.
    + simpl in Hq. apply orb_false_iff in Hq as [Hc Hs].
      normalise.
      rewrite read_text_char;
        [|by apply csv_special_false in Hc as (_ & _ & ?)|nonempty].
      rewrite step_start_plain by done. simpl.
      rewrite read_plain_content by done. normalise.
      by rewrite read_text_CRLF.
Qed.

Lemma str_join_cons2 sep x y l :
  str_join sep (x :: y :: l) = x +:+ sep +:+ str_join sep (y :: l).
Proof. reflexivity. Qed.

(** The fields of a record, from the first one to the line end. *)
Lemma read_fields l : ∀ s st fs rest,
  fresh st → st = START_FIELD ∨ l ≠ [] ∨ quote_field s ≠ "" →
  read_text (Reader st "" fs)
            (str_join "," (quote_field <$> s :: l) +:+ CRLF +:+ rest)
  = records ← read_text parse_reset rest; Some ((fs ++ s :: l)%list :: records).
Proof.
  induction l as [|s' l IH]; intros s st fs rest Hst Hne.
  - simpl str_join. normalise. apply read_field_end; [done|].
    destruct Hne as [?|[?|?]]; auto.
  - rewrite fmap_cons, fmap_cons, str_join_cons2.
    rewrite !str_app_assoc, str_app_cons, str_app_nil.
    rewrite read_field_comma; [|done|unfold CRLF; nonempty].
    rewrite <- fmap_cons.
    rewrite IH; [|by right|by left].
    by rewrite <- app_assoc.
Qed.

Lemma quote_field_empty s : quote_field s = "" → s = "".
Proof. unfold quote_field. by destruct (needs_quotes s). Qed.

Lemma str_join_empty s l : str_join "," (quote_field <$> s :: l) = "" → s = "" ∧ l = [].
Proof.
  destruct l as [|s' l].
  - simpl. by intros ->%quote_field_empty.
  - rewrite !fmap_cons, str_join_cons2. intros H.
    exfalso. revert H. apply str_app_nonempty. discriminate.
Qed.

(** One record written, one record read. *)
Lemma read_record row rest :
  read_text parse_reset (csv_record row +:+ rest)
  = records ← read_text parse_reset rest; Some (row :: records).
Proof.
  destruct row as [|s l].
  - change (csv_record []) with ("" +:+ CRLF). normalise.
    by rewrite read_text_CRLF.
  - unfold csv_record.
    destruct (str_join "," (quote_field <$> s :: l)) as [|c line] eqn:Hline.
    + apply str_join_empty in Hline as [-> ->]. normalise.
      rewrite read_text_char by (reflexivity || nonempty). simpl.
      rewrite read_text_char by (reflexivity || nonempty). simpl.
      by rewrite read_text_CRLF.
    + rewrite <- Hline. rewrite str_app_assoc.
      rewrite (read_fields l s START_RECORD []); [done|by left|].
      right. destruct l as [|s' l]; [right|by left].
      simpl in Hline. by rewrite Hline.
Qed.

(** Rows of any cells are read back as the texts of their cells. *)
Lemma read_rows_cells (rows : list (list value)) :
  read_text parse_reset (writerows rows) = Some (map (map csv_cell) rows).
Proof.
  induction rows as [|row rows IH]; [done|].
  simpl writerows. unfold writerow.
  by rewrite read_record, IH.
Qed.

Lemma csv_cell_strings (row : list string) : map csv_cell (map VStr row) = row.
Proof. induction row as [|s row IH]; [done|]. simpl. by rewrite IH. Qed.

Lemma writerow_strings (row : list string) : writerow (map VStr row) = csv_record row.
Proof. unfold writerow. f_equal. apply csv_cell_strings. Qed.

Lemma read_rows (rows : list (list string)) :
  read_text parse_reset (writerows (map (map VStr) rows)) = Some rows.
Proof.
  rewrite read_rows_cells. f_equal.
  induction rows as [|row rows IH]; [done|].
  simpl. by rewrite csv_cell_strings, IH.
Qed.

Lemma csv_reader_read_text text : csv_reader text = read_text parse_reset text.
Proof. reflexivity. Qed.

(** C9: rows whose cells are strings are read back from the written text
    exactly, after the header row and in their order, whatever commas,
    quotes, carriage returns and line feeds the cells hold. *)
Theorem csv_round_trip (rows : list (list string)) :
  csv_reader (write_csv (map (map VStr) rows)) = Some (column_names :: rows).
Proof.
  rewrite csv_reader_read_text. unfold write_csv, header.
  by rewrite writerow_strings, read_record, read_rows.
Qed.


(** * Further properties *)

(** ** The rows of a document *)

(** Go through the binds of a run that ended normally. *)
Ltac bind_cases H :=
  repeat match type of H with
         | context [match ?r with Ok _ => _ | Raise _ => _ end] =>
             destruct r eqn:?; simpl in H; try discriminate H
         end.

(** X1: A run of the extractions that ends normally gives the eleven cells of
    the header, the entry's URL first. *)
Theorem extract_row_shape url resource row :
  extract_row url resource = Ok row →
  length row = length column_names ∧ row !! 0%nat = Some url.
Proof.
  unfold extract_row, mbind, result_bind. intros Hrow.
  bind_cases Hrow. by injection Hrow as <-.
Qed.

Lemma extract_row_shape_witness :
  length [VStr "u1"; VStr ""; VStr ""; VStr ""; VNone; VBool false;
          VStr ""; VList [VStr ""]; VStr ""; VStr ""; VStr ""] = length column_names ∧
  [VStr "u1"; VStr ""; VStr ""; VStr ""; VNone; VBool false;
   VStr ""; VList [VStr ""]; VStr ""; VStr ""; VStr ""] !! 0%nat = Some (VStr "u1").
Proof.
  apply (extract_row_shape (VStr "u1") (VDict [("name", VList [VDict []])])).
  reflexivity.
Defined.

(** X2: When the rows are produced, a key the resource lacks leaves the
    default in its column: the empty string, [None] for the system id,
    [False] for the active flag. *)
Theorem extract_row_missing_keys url items row :
  extract_row url (VDict items) = Ok row →
  (dict_lookup "id" items = None → row !! 1%nat = Some (VStr "")) ∧
  (dict_lookup "meta" items = None → row !! 2%nat = Some (VStr "")) ∧
  (dict_lookup "text" items = None →
     row !! 3%nat = Some (VStr "") ∧ row !! 4%nat = Some VNone) ∧
  (dict_lookup "active" items = None → row !! 5%nat = Some (VBool false)) ∧
  (dict_lookup "telecom" items = None → row !! 8%nat = Some (VStr "")) ∧
  (dict_lookup "gender" items = None → row !! 9%nat = Some (VStr "")) ∧
  (dict_lookup "address" items = None → row !! 10%nat = Some (VStr "")).
Proof.
  unfold extract_row, mbind, result_bind, py_get. intros Hrow.
  repeat apply conj; intros Hkey; rewrite ?Hkey in Hrow; simpl in Hrow;
    bind_cases Hrow; by injection Hrow as <-.
Qed.

Lemma extract_row_missing_keys_witness :
  let row := [VStr "u1"; VStr ""; VStr ""; VStr ""; VNone; VBool false;
              VStr "Ann"; VList [VStr ""]; VStr ""; VStr ""; VStr ""] in
  row !! 8%nat = Some (VStr "") ∧ row !! 5%nat = Some (VBool false).
Proof.
  pose proof (extract_row_missing_keys (VStr "u1")
                [("name", VList [VDict [("given", VList [VStr "Ann"])]])]
                _ eq_refl) as (_ & _ & _ & Hactive & Htelecom & _).
  split; [apply Htelecom | apply Hactive]; reflexivity.
Defined.

Lemma parse_entries_rows entries : ∀ rows rows',
  parse_entries entries rows = Ok rows' →
  ∃ new, rows' = (rows ++ new)%list ∧
         Forall2 (λ entry row, parse_entry entry = Ok (Some row)) entries new.
Proof.
  induction entries as [|entry entries IH]; intros rows rows' Hrun; simpl in Hrun.
  - injection Hrun as <-. exists []. by rewrite app_nil_r.
  - pose proof (parse_entry_never_skips entry) as Hskip.
    destruct (parse_entry entry) as [[row|]|] eqn:Hentry; simpl in Hrun; [|done..].
    apply IH in Hrun as (new & -> & Hnew).
    exists (row :: new). split; [by rewrite <- app_assoc|].
    by constructor.
Qed.

(** X3: The loop over the entries, when it ends normally, has added one row
    for each entry, in the order of the entries. *)
Theorem parse_entries_one_row_each entries rows :
  parse_entries entries [] = Ok rows →
  Forall2 (λ entry row, parse_entry entry = Ok (Some row)) entries rows.
Proof.
  intros Hrun. apply parse_entries_rows in Hrun as (new & -> & Hnew). exact Hnew.
Qed.

Lemma parse_entries_one_row_each_witness :
  Forall2 (λ entry row, parse_entry entry = Ok (Some row))
    [VDict [("fullUrl", VStr "u1");
            ("resource", VDict [("resourceType", VStr "Patient");
                                ("name", VList [VDict []])])];
     VDict [("fullUrl", VStr "u2");
            ("resource", VDict [("resourceType", VStr "patient");
                                ("name", VList [VDict []])])]]
    [[VStr "u1"; VStr ""; VStr ""; VStr ""; VNone; VBool false;
      VStr ""; VList [VStr ""]; VStr ""; VStr ""; VStr ""];
     [VStr "u2"; VStr ""; VStr ""; VStr ""; VNone; VBool false;
      VStr ""; VList [VStr ""]; VStr ""; VStr ""; VStr ""]].
Proof. apply parse_entries_one_row_each. reflexivity. Defined.

(** X4: The resource type is compared without regard to case: an entry whose
    type lowers to [patient] goes to the extractions. *)
Theorem parse_entry_patient_any_case items ritems rt :
  dict_lookup "resource" items = Some (VDict ritems) →
  ritems ≠ [] →
  dict_lookup "resourceType" ritems = Some (VStr rt) →
  str_lower rt = "patient" →
  parse_entry (VDict items)
  = row ← extract_row (default (VStr "") (dict_lookup "fullUrl" items)) (VDict ritems);
    Ok (Some row).
Proof.
  intros Hres Hne Htype Hlower.
  unfold parse_entry. simpl. rewrite Hres. simpl.
  destruct ritems as [|item ritems]; [done|]. simpl negb. cbv iota.
  simpl py_get. rewrite Htype. simpl. rewrite Hlower. reflexivity.
Qed.

Lemma parse_entry_patient_any_case_witness :
  parse_entry (VDict [("fullUrl", VStr "u1");
                      ("resource", VDict [("resourceType", VStr "PaTiENT");
                                          ("name", VList [VDict []])])])
  = Ok (Some [VStr "u1"; VStr ""; VStr ""; VStr ""; VNone; VBool false;
              VStr ""; VList [VStr ""]; VStr ""; VStr ""; VStr ""]).
Proof.
  apply (parse_entry_patient_any_case
           [("fullUrl", VStr "u1");
            ("resource", VDict [("resourceType", VStr "PaTiENT");
                                ("name", VList [VDict []])])]
           [("resourceType", VStr "PaTiENT"); ("name", VList [VDict []])]
           "PaTiENT"); done.
Defined.

(** X5: An entry whose resource is missing or empty, and an entry whose type
    does not lower to [patient], stop the extraction with [NameError]. *)
Theorem parse_entry_not_patient items :
  (truthy (default (VDict []) (dict_lookup "resource" items)) = false →
   parse_entry (VDict items) = Raise (NameError "in_file")) ∧
  (∀ ritems rt,
     dict_lookup "resource" items = Some (VDict ritems) →
     ritems ≠ [] →
     dict_lookup "resourceType" ritems = Some (VStr rt) →
     str_lower rt ≠ "patient" →
     parse_entry (VDict items) = Raise (NameError "in_file")).
Proof.
  split.
  - intros Hfalsy. unfold parse_entry. simpl. by rewrite Hfalsy.
  - intros ritems rt Hres Hne Htype Hlower.
    unfold parse_entry. simpl. rewrite Hres. simpl.
    destruct ritems as [|item ritems]; [done|]. simpl negb. cbv iota.
    simpl py_get. rewrite Htype. simpl.
    destruct (String.eqb (str_lower rt) "patient") eqn:Heq; [|done].
    by apply String.eqb_eq in Heq.
Qed.

Lemma parse_entry_not_patient_witness :
  parse_entry (VDict [("fullUrl", VStr "u0"); ("resource", VNone)])
  = Raise (NameError "in_file") ∧
  parse_entry (VDict [("fullUrl", VStr "u0");
                      ("resource", VDict [("resourceType", VStr "Device")])])
  = Raise (NameError "in_file").
Proof.
  split.
  - apply (proj1 (parse_entry_not_patient
                    [("fullUrl", VStr "u0"); ("resource", VNone)])).
    reflexivity.
  - apply (proj2 (parse_entry_not_patient
                    [("fullUrl", VStr "u0");
                     ("resource", VDict [("resourceType", VStr "Device")])])
             [("resourceType", VStr "Device")] "Device"); done.
Defined.


(** ** What [parse_patient_data] does to the files *)


Section FileEffects.
Context `{RT : Runtime}.

(** The two ways a call ends: an exception with the world untouched, or
    the output file written from the rows and nothing else changed. *)
Lemma parse_patient_data_cases input_file output_file (w : world RT) :
  (∃ e, parse_patient_data input_file output_file w = (Raise e, w)) ∨
  (∃ rows, parse_patient_data input_file output_file w
           = (Ok (), World (<[output_file := write_csv rows]> (files w))
                           (remote w) (calls w))).
Proof.
  unfold parse_patient_data, os_path_exists, read_file, write_file, lift,
    mbind, M_bind; simpl.
  destruct (files w !! input_file) as [text|] eqn:Hfile; simpl.
  - rewrite Hfile.
    destruct (json_loads text) as [data|e]; [|left; by exists e].
    destruct (parse_document data) as [rows|e]; [|left; by exists e].
    right. by exists rows.
  - right. by exists [].
Qed.


(** X7: No call touches a file other than the output file, a service or the
    calls made on messages; the input file in particular stays. *)
Theorem parse_patient_data_frame input_file output_file (w : world RT) path :
  path ≠ output_file →
  files (parse_patient_data input_file output_file w).2 !! path = files w !! path ∧
  remote (parse_patient_data input_file output_file w).2 = remote w ∧
  calls (parse_patient_data input_file output_file w).2 = calls w.
Proof.
  intros Hpath.
  destruct (parse_patient_data_cases input_file output_file w) as [[e' Hrun]|[rows Hrun]];
    rewrite Hrun; simpl; [done|].
  by rewrite lookup_insert_ne.
Qed.


End FileEffects.


Lemma parse_patient_data_frame_witness :
  files (parse_patient_data "in.json" "out.csv" (with_input ann_lee_bundle)).2 !! "in.json"
  = Some ann_lee_bundle.
Proof.
  destruct (parse_patient_data_frame (RT := sim_runtime true)
              "in.json" "out.csv" (with_input ann_lee_bundle) "in.json")
    as [Hfile _]; [discriminate|].
  rewrite Hfile. reflexivity.
Defined.


(** ** The writer on any cells *)



(** ** The steps for one message *)

Section Steps.
Context `{RT : Runtime}.










(** The call a turn of the loop makes on its message. *)
Lemma process_message_call msg (w : world RT) :
  calls (process_message msg w).2
  = (calls w ++ [match (pipeline msg w).1 with
                 | Ok _ => Delete msg
                 | Raise _ => ChangeVisibility msg 0
                 end])%list.
Proof.
  pose proof (keeps_calls_pipeline msg w) as Hcalls.
  unfold process_message, try_catch, mbind, M_bind.
  destruct (pipeline msg w) as [[[]|e] w']; simpl in *; unfold on_cloud; simpl.
  - destruct (message_delete msg (remote w')); simpl. by rewrite Hcalls.
  - destruct (message_change_visibility msg 0 (remote w')); simpl. by rewrite Hcalls.
Qed.


(** X15: When the steps raise and the visibility change raises as well, that
    exception leaves the turn of the loop. *)
Theorem process_message_handler_raises msg (w : world RT) e e' :
  (pipeline msg w).1 = Raise e →
  (message_change_visibility msg 0 (remote (pipeline msg w).2)).1 = Raise e' →
  (process_message msg w).1 = Raise e'.
Proof.
  pose proof (keeps_calls_pipeline msg w) as Hcalls.
  unfold process_message, try_catch, mbind, M_bind.
  destruct (pipeline msg w) as [outcome w']; simpl.
  intros -> Hvis. simpl. unfold on_cloud. simpl.
  by destruct (message_change_visibility msg 0 (remote w')).
Qed.

End Steps.







Lemma process_message_handler_raises_witness :
  (process_message bad_message (sim_world false ∅ foo_cloud)).1
  = Raise (ServiceError "sqs").
Proof.
  apply (process_message_handler_raises (RT := sim_runtime false)
           bad_message (sim_world false ∅ foo_cloud) ValueError); reflexivity.
Defined.

(** ** A batch *)

Section Batch.
Context `{RT : Runtime}.

Lemma for_each_settles :
  queue_calls_succeed →
  ∀ (batch : list message) (w : world RT),
    ∃ cs, calls (for_each batch process_message w).2 = (calls w ++ cs)%list ∧
          Forall2 settles batch cs.
Proof.
  intros Hq batch. induction batch as [|msg batch IH]; intros w.
  - exists []. simpl. by rewrite app_nil_r.
  - simpl. unfold mbind, M_bind.
    pose proof (process_message_returns Hq msg w) as Hret.
    pose proof (process_message_call msg w) as Hcall.
    destruct (process_message msg w) as [[[]|e] w']; simpl in *; [|done].
    destruct (IH w') as (cs & Hcs & Hall).
    eexists (_ :: cs). rewrite Hcs, Hcall, <- app_assoc. split; [done|].
    constructor; [|done].
    unfold settles. destruct ((pipeline msg w).1); auto.
Qed.

(** X16: As long as the calls on the queue return normally, a turn of the
    worker makes exactly one call for each message of the batch, in the
    order of the batch: its deletion or its visibility change to zero.  A
    message whose steps raise does not keep the later ones from being
    processed. *)
Theorem process_data_settles_each (w : world RT) url c1 batch c2 :
  queue_calls_succeed →
  sqs_get_queue_by_name sqsqueue_name (remote w) = (Ok url, c1) →
  queue_receive_messages url 120 20 10 c1 = (Ok batch, c2) →
  (process_data w).1 = Ok () ∧
  ∃ cs, calls (process_data w).2 = (calls w ++ cs)%list ∧ Forall2 settles batch cs.
Proof.
  intros Hq Hget Hrecv. split; [by apply process_data_returns|].
  unfold process_data, get_messages_from_sqs, mbind, M_bind, on_cloud.
  rewrite Hget. simpl. rewrite Hrecv. simpl.
  apply (for_each_settles Hq batch (World (files w) c2 (calls w))).
Qed.

(** X17: An empty batch: the turn ends at once, with no file touched and no
    call made. *)
Theorem process_data_empty_batch (w : world RT) url c1 c2 :
  sqs_get_queue_by_name sqsqueue_name (remote w) = (Ok url, c1) →
  queue_receive_messages url 120 20 10 c1 = (Ok [], c2) →
  process_data w = (Ok (), World (files w) c2 (calls w)).
Proof.
  intros Hget Hrecv.
  unfold process_data, get_messages_from_sqs, mbind, M_bind, on_cloud.
  rewrite Hget. simpl. rewrite Hrecv. reflexivity.
Qed.

(** X18: An exception raised while finding the queue or receiving from it
    ends the worker in the turn where it occurs. *)
Theorem main_fetch_failure (n : nat) (w : world RT) e :
  ((sqs_get_queue_by_name sqsqueue_name (remote w)).1 = Raise e →
   (main (S n) w).1 = Raise e) ∧
  (∀ url c1,
     sqs_get_queue_by_name sqsqueue_name (remote w) = (Ok url, c1) →
     (queue_receive_messages url 120 20 10 c1).1 = Raise e →
     (main (S n) w).1 = Raise e).
Proof.
  unfold main, create_dirs, worker_loop, process_data, get_messages_from_sqs,
    mbind, M_bind, mret, M_ret, on_cloud.
  split.
  - destruct (sqs_get_queue_by_name sqsqueue_name (remote w)) as [r c]; simpl.
    by intros ->.
  - intros url c1 -> Hrecv. simpl.
    destruct (queue_receive_messages url 120 20 10 c1) as [r c]; simpl in *.
    by subst r.
Qed.

End Batch.

Lemma process_data_settles_each_witness :
  (process_data (sim_world true ∅ two_waiting)).1 = Ok () ∧
  ∃ cs, calls (process_data (sim_world true ∅ two_waiting)).2 = cs ∧
        Forall2 settles [bad_message; foo_message] cs.
Proof.
  apply (process_data_settles_each (RT := sim_runtime true)
           (sim_world true ∅ two_waiting) "batch-queue" two_waiting
           [bad_message; foo_message]
           (SimCloud (objects two_waiting) [] [bad_message; foo_message]));
    [exact sim_queue_calls_succeed | reflexivity | reflexivity].
Defined.

Lemma process_data_empty_batch_witness :
  (process_data (sim_world true ∅ empty_cloud)).1 = Ok ().
Proof.
  rewrite (process_data_empty_batch (RT := sim_runtime true)
             (sim_world true ∅ empty_cloud) "batch-queue" empty_cloud empty_cloud);
    reflexivity.
Defined.

Lemma main_fetch_failure_witness :
  (main 3 (sim_world false ∅ two_waiting)).1 = Raise (ServiceError "sqs").
Proof.
  apply (proj1 (main_fetch_failure (RT := sim_runtime false) 2
                  (sim_world false ∅ two_waiting) (ServiceError "sqs"))).
  reflexivity.
Defined.


(** ** The path of the output *)














